(** * Energy Harvester Management System: the registry of [src/index.ts]

    A shallow embedding of the canister's exported operations and the
    properties of the registry they maintain.

    Modelling choices, all following the source:
    - a JavaScript [number] is an IEEE 754 binary64 value, here a primitive
      [float]; the loop counter [totalRecords], which only ever holds the
      number of loop iterations, is kept as a [nat];
    - [nat64] is [N]; strings are [string], and [toLowerCase] acts on the
      letters [A]..[Z] (the ASCII part of [String.prototype.toLowerCase]);
    - [energyHarvesterStorage], a [StableBTreeMap<string, EnergyHarvester>],
      is a finite map [gmap string EnergyHarvester.t] threaded through every
      operation; its capacity bounds (key and value sizes) are not modelled,
      so the store operations are total and the [catch] branches, which
      only report a failing store access, have no counterpart;
    - [uuidv4()] is the identifier source: the identifier it returns on a
      call is the argument [harvesterId] of [addEnergyHarvester];
    - [Opt] is [option], azle's [match] on it is pattern matching, and
      [Result] is a two-constructor sum. *)

From Stdlib Require Import Floats.PrimFloat NArith Ascii String List.
From stdpp Require Import gmap strings list fin_maps.
Import ListNotations.

Local Open Scope string_scope.

(** ** Data model *)

Definition number : Set := float.

Module EnergyRecord.
Record t : Set := mk
  { id : string;
    source : string;
    powerGenerated : number;
    timestamp : N }.
End EnergyRecord.

Module EnergyHarvester.
Record t : Set := mk
  { id : string;
    name : string;
    location : string;
    energyRecords : list EnergyRecord.t }.
End EnergyHarvester.

Module EnergyPayload.
(** Modelled from the spec: the type [EnergyPayload] of the second
    parameter of [updateEnergyHarvester] is not declared in [index.ts];
    the payload is described as carrying [name], [location] and
    [energyRecords]. *)
Record t : Set := mk
  { name : string;
    location : string;
    energyRecords : list EnergyRecord.t }.
End EnergyPayload.

Inductive Result (T E : Type) : Type :=
| Ok (value : T)
| Err (error : E).
Arguments Ok {T E} value.
Arguments Err {T E} error.

Abbreviation Storage := (gmap string EnergyHarvester.t).

(** ** The store: the [StableBTreeMap] methods the canister calls *)

Module StableBTreeMap.
Definition get (key : string) (m : Storage) : option EnergyHarvester.t :=
  m !! key.

(** [insert] replaces the entry under [key] and yields the previous one. *)
Definition insert (key : string) (value : EnergyHarvester.t) (m : Storage)
  : option EnergyHarvester.t * Storage :=
  (m !! key, <[key := value]> m).

(** [remove] yields the removed entry, if there was one. *)
Definition remove (key : string) (m : Storage)
  : option EnergyHarvester.t * Storage :=
  (m !! key, delete key m).

(** [values] lists the stored entities in the map's iteration order. *)
Definition values (m : Storage) : list EnergyHarvester.t :=
  (map_to_list m).*2.
End StableBTreeMap.

(** ** JavaScript string primitives *)

(** [!s] on a string: only the empty string is falsy. *)
Definition js_not (s : string) : bool :=
  match s with
  | EmptyString => true
  | String _ _ => false
  end.

Definition toLowerCase_char (c : ascii) : ascii :=
  let n := nat_of_ascii c in
  if (65 <=? n)%nat && (n <=? 90)%nat then ascii_of_nat (n + 32) else c.

Fixpoint toLowerCase (s : string) : string :=
  match s with
  | EmptyString => EmptyString
  | String c s' => String (toLowerCase_char c) (toLowerCase s')
  end.

(** [s.includes(sub)]: [sub] occurs in [s] at some position. *)
Fixpoint includes (s sub : string) : bool :=
  String.prefix sub s ||
  match s with
  | EmptyString => false
  | String _ s' => includes s' sub
  end.

(** ** Object literals

    Both entities the canister builds are written as object literals with a
    spread, [{ id: harvesterId, ...payload }] and
    [{ ...existingHarvester, name: ..., location: ..., energyRecords: ... }].
    A literal assigns its properties from left to right, a spread standing
    for the own properties of the object it copies, so a later property
    replaces an earlier one of the same name. *)

Inductive property : Set :=
| P_id (v : string)
| P_name (v : string)
| P_location (v : string)
| P_energyRecords (v : list EnergyRecord.t).

Definition own_properties (o : EnergyHarvester.t) : list property :=
  [ P_id (EnergyHarvester.id o);
    P_name (EnergyHarvester.name o);
    P_location (EnergyHarvester.location o);
    P_energyRecords (EnergyHarvester.energyRecords o) ].

Definition assign (o : EnergyHarvester.t) (p : property) : EnergyHarvester.t :=
  match p with
  | P_id v =>
      EnergyHarvester.mk v (EnergyHarvester.name o)
        (EnergyHarvester.location o) (EnergyHarvester.energyRecords o)
  | P_name v =>
      EnergyHarvester.mk (EnergyHarvester.id o) v
        (EnergyHarvester.location o) (EnergyHarvester.energyRecords o)
  | P_location v =>
      EnergyHarvester.mk (EnergyHarvester.id o) (EnergyHarvester.name o)
        v (EnergyHarvester.energyRecords o)
  | P_energyRecords v =>
      EnergyHarvester.mk (EnergyHarvester.id o) (EnergyHarvester.name o)
        (EnergyHarvester.location o) v
  end.

(** The two literals of the source set all four properties, so the fields
    of the object they start from are never read. *)
Definition object_literal (ps : list property) : EnergyHarvester.t :=
  fold_left assign ps (EnergyHarvester.mk "" "" "" []).

(** ** The exported operations *)

Definition missing_fields_msg : string :=
  "Missing required fields in the energy harvester object".

Definition addEnergyHarvester
    (harvesterId : string) (payload : EnergyHarvester.t) (st : Storage)
  : Result EnergyHarvester.t string * Storage :=
  if js_not (EnergyHarvester.name payload)
     || js_not (EnergyHarvester.location payload)
     || (length (EnergyHarvester.energyRecords payload) =? 0)%nat
  then (Err missing_fields_msg, st)
  else
    let newHarvester :=
      object_literal (P_id harvesterId :: own_properties payload) in
    let '(_, st') :=
      StableBTreeMap.insert (EnergyHarvester.id newHarvester) newHarvester st in
    (Ok newHarvester, st').

Definition getEnergyHarvesters (st : Storage)
  : Result (list EnergyHarvester.t) string :=
  Ok (StableBTreeMap.values st).

(** The source returns [Result.Ok(energyHarvesterStorage.get(id))]: the
    value under [Ok] is the [Opt] that [get] yields, not its content. *)
Definition getEnergyHarvester (id : string) (st : Storage)
  : Result (option EnergyHarvester.t) string :=
  if js_not id
  then Err "Invalid ID for getting an energy harvester."
  else Ok (StableBTreeMap.get id st).

Definition updateEnergyHarvester
    (id : string) (payload : EnergyPayload.t) (st : Storage)
  : Result EnergyHarvester.t string * Storage :=
  if js_not id
  then (Err "Invalid ID for updating an energy harvester.", st)
  else if js_not (EnergyPayload.name payload)
          || js_not (EnergyPayload.location payload)
          || (length (EnergyPayload.energyRecords payload) =? 0)%nat
  then (Err missing_fields_msg, st)
  else
    match StableBTreeMap.get id st with
    | Some existingHarvester =>
        let updatedHarvester :=
          object_literal
            (own_properties existingHarvester
               ++ [ P_name (EnergyPayload.name payload);
                    P_location (EnergyPayload.location payload);
                    P_energyRecords (EnergyPayload.energyRecords payload) ]) in
        let '(_, st') := StableBTreeMap.insert id updatedHarvester st in
        (Ok updatedHarvester, st')
    | None =>
        (Err ("Energy harvester with id=" +:+ id +:+ " does not exist"), st)
    end.

Definition harvester_matches (lowerCaseQuery : string)
    (harvester : EnergyHarvester.t) : bool :=
  includes (toLowerCase (EnergyHarvester.name harvester)) lowerCaseQuery
  || includes (toLowerCase (EnergyHarvester.location harvester)) lowerCaseQuery.

Definition searchEnergyHarvesters (query : string) (st : Storage)
  : Result (list EnergyHarvester.t) string :=
  let lowerCaseQuery := toLowerCase query in
  let filteredHarvesters :=
    List.filter (harvester_matches lowerCaseQuery) (StableBTreeMap.values st) in
  Ok filteredHarvesters.

Definition deleteEnergyHarvester (id : string) (st : Storage)
  : Result EnergyHarvester.t string * Storage :=
  if js_not id
  then (Err "Invalid ID for deleting an energy harvester.", st)
  else
    match StableBTreeMap.remove id st with
    | (Some deletedHarvester, st') => (Ok deletedHarvester, st')
    | (None, st') =>
        (Err ("Energy harvester with id=" +:+ id +:+ " does not exist"), st')
    end.

Definition getEnergyRecords (id : string) (st : Storage)
  : Result (list EnergyRecord.t) string :=
  if js_not id
  then Err "Invalid ID for retrieving energy records."
  else
    match StableBTreeMap.get id st with
    | Some harvester => Ok (EnergyHarvester.energyRecords harvester)
    | None => Err ("Energy harvester with id=" +:+ id +:+ " not found")
    end.

(** The nested [forEach] loops share one accumulator. *)
Definition getTotalPowerGenerated (st : Storage) : Result number string :=
  let totalPower :=
    fold_left
      (fun totalPower harvester =>
         fold_left
           (fun totalPower record =>
              (totalPower + EnergyRecord.powerGenerated record)%float)
           (EnergyHarvester.energyRecords harvester) totalPower)
      (StableBTreeMap.values st) 0%float in
  Ok totalPower.

(** The number a counter holds after [n] increments from [0]. *)
Definition counter_value (n : nat) : number :=
  Nat.iter n (fun c => (c + 1)%float) 0%float.

Definition getAveragePowerGenerated (st : Storage) : Result number string :=
  let '(totalPower, totalRecords) :=
    fold_left
      (fun acc harvester =>
         fold_left
           (fun '(totalPower, totalRecords) record =>
              ((totalPower + EnergyRecord.powerGenerated record)%float,
               S totalRecords))
           (EnergyHarvester.energyRecords harvester) acc)
      (StableBTreeMap.values st) (0%float, 0%nat) in
  if (totalRecords =? 0)%nat
  then Err "No energy records found"
  else
    let averagePower := (totalPower / counter_value totalRecords)%float in
    Ok averagePower.

(** ** Reachable stores *)

Inductive call : Set :=
| Call_add (harvesterId : string) (payload : EnergyHarvester.t)
| Call_update (id : string) (payload : EnergyPayload.t)
| Call_delete (id : string).

Definition run (c : call) (st : Storage) : Storage :=
  match c with
  | Call_add harvesterId payload => snd (addEnergyHarvester harvesterId payload st)
  | Call_update id payload => snd (updateEnergyHarvester id payload st)
  | Call_delete id => snd (deleteEnergyHarvester id st)
  end.

Inductive reachable : Storage -> Prop :=
| reachable_empty : reachable ∅
| reachable_call st c : reachable st -> reachable (run c st).

(** ** Sample data: the scenario of the specification *)

Definition wind_record : EnergyRecord.t :=
  EnergyRecord.mk "r1" "wind" 150%float 1000%N.

Definition turbine_a (id : string) : EnergyHarvester.t :=
  EnergyHarvester.mk id "Turbine A" "North Field" [wind_record].

Definition turbine_payload : EnergyPayload.t :=
  EnergyPayload.mk "Turbine B" "South Field" [wind_record].

(** ** Specification-level notions the operations are compared with *)

(** [sub] is a substring of [s]. *)
Definition contains (s sub : string) : Prop :=
  exists pre post, s = pre +:+ sub +:+ post.

(** Every record of every stored harvester, in iteration order. *)
Definition spec_all_records (st : Storage) : list EnergyRecord.t :=
  List.concat (List.map EnergyHarvester.energyRecords (StableBTreeMap.values st)).

(** The sum of [powerGenerated] over a sequence of records, added from the
    left starting at [0]. *)
Definition spec_sum_power (records : list EnergyRecord.t) : number :=
  fold_left (fun acc record => (acc + EnergyRecord.powerGenerated record)%float)
    records 0%float.

(** Every key is the [id] of the entity stored under it. *)
Definition keys_are_ids (st : Storage) : Prop :=
  forall key harvester, st !! key = Some harvester ->
                        EnergyHarvester.id harvester = key.

(** A store holding one harvester under the key ["h1"]. *)
Definition one_turbine : Storage := {[ "h1" := turbine_a "h1" ]}.

Definition sample (power : number) : EnergyRecord.t :=
  EnergyRecord.mk "r" "solar" power 0%N.

(** Two harvesters with records [10, 20] and [30]. *)
Definition two_harvesters : Storage :=
  <["a" := EnergyHarvester.mk "a" "Solar Array 1" "Roof"
             [sample 10%float; sample 20%float]]>
    {[ "b" := EnergyHarvester.mk "b" "Mill" "Hill" [sample 30%float] ]}.

(** A store whose only harvester has no record. *)
Definition idle_store : Storage :=
  {[ "h0" := EnergyHarvester.mk "h0" "Idle" "Depot" [] ]}.

(** The three required fields of a stored entity are filled in. *)
Definition has_required_fields (harvester : EnergyHarvester.t) : Prop :=
  EnergyHarvester.name harvester <> ""
  /\ EnergyHarvester.location harvester <> ""
  /\ EnergyHarvester.energyRecords harvester <> [].

(** The entity [updateEnergyHarvester] builds from the stored one and the
    payload, once the literal is evaluated. *)
Definition updated_entity (existing : EnergyHarvester.t)
    (payload : EnergyPayload.t) : EnergyHarvester.t :=
  EnergyHarvester.mk (EnergyHarvester.id existing)
    (EnergyPayload.name payload) (EnergyPayload.location payload)
    (EnergyPayload.energyRecords payload).

(** ** Basic facts about the primitives *)

Lemma js_not_true (s : string) : js_not s = true <-> s = "".
Proof. destruct s; simpl; split; congruence. Qed.

Lemma js_not_false (s : string) : js_not s = false <-> s <> "".
Proof. destruct s; simpl; split; congruence. Qed.

Lemma length_eqb_0 {A} (l : list A) : (length l =? 0)%nat = true <-> l = [].
Proof. destruct l; simpl; split; congruence. Qed.

(** The condition guarding [addEnergyHarvester] and [updateEnergyHarvester],
    read as a proposition on the three required fields. *)
Lemma guard_true (name location : string) (records : list EnergyRecord.t) :
  js_not name || js_not location || (length records =? 0)%nat = true
  <-> name = "" \/ location = "" \/ records = [].
Proof.
  rewrite !orb_true_iff, !js_not_true, length_eqb_0. tauto.
Qed.

Lemma guard_false (name location : string) (records : list EnergyRecord.t) :
  js_not name || js_not location || (length records =? 0)%nat = false
  <-> name <> "" /\ location <> "" /\ records <> [].
Proof.
  rewrite <- not_true_iff_false, guard_true. split.
  - intros H. repeat split; intros E; apply H; auto.
  - intros (Hn & Hl & Hr) [E | [E | E]]; auto.
Qed.

(** [{ id: harvesterId, ...payload }] is [payload] itself: the spread
    overwrites the identifier set first. *)
Lemma new_harvester_literal (harvesterId : string) (payload : EnergyHarvester.t) :
  object_literal (P_id harvesterId :: own_properties payload) = payload.
Proof. destruct payload; reflexivity. Qed.

(** [{ ...existingHarvester, name, location, energyRecords }] keeps the
    identifier of [existingHarvester] and nothing else. *)
Lemma updated_harvester_literal (e : EnergyHarvester.t) (name location : string)
    (records : list EnergyRecord.t) :
  object_literal
    (own_properties e ++ [P_name name; P_location location; P_energyRecords records])
  = EnergyHarvester.mk (EnergyHarvester.id e) name location records.
Proof. destruct e; reflexivity. Qed.

(** ** What each mutating operation returns *)

Lemma addEnergyHarvester_invalid harvesterId payload (st : Storage) :
  EnergyHarvester.name payload = "" \/ EnergyHarvester.location payload = ""
  \/ EnergyHarvester.energyRecords payload = [] ->
  addEnergyHarvester harvesterId payload st = (Err missing_fields_msg, st).
Proof.
  intros H. apply guard_true in H. unfold addEnergyHarvester. now rewrite H.
Qed.

Lemma addEnergyHarvester_valid harvesterId payload (st : Storage) :
  EnergyHarvester.name payload <> "" ->
  EnergyHarvester.location payload <> "" ->
  EnergyHarvester.energyRecords payload <> [] ->
  addEnergyHarvester harvesterId payload st
  = (Ok payload, <[EnergyHarvester.id payload := payload]> st).
Proof.
  intros Hn Hl Hr. unfold addEnergyHarvester.
  rewrite (proj2 (guard_false _ _ _)) by auto.
  rewrite new_harvester_literal. reflexivity.
Qed.


Lemma updateEnergyHarvester_invalid id payload (st : Storage) :
  id <> "" ->
  EnergyPayload.name payload = "" \/ EnergyPayload.location payload = ""
  \/ EnergyPayload.energyRecords payload = [] ->
  updateEnergyHarvester id payload st = (Err missing_fields_msg, st).
Proof.
  intros Hid H. apply js_not_false in Hid. apply guard_true in H.
  unfold updateEnergyHarvester. now rewrite Hid, H.
Qed.

Lemma updateEnergyHarvester_valid id payload (st : Storage) :
  id <> "" ->
  EnergyPayload.name payload <> "" ->
  EnergyPayload.location payload <> "" ->
  EnergyPayload.energyRecords payload <> [] ->
  updateEnergyHarvester id payload st
  = match st !! id with
    | Some existing =>
        let updated :=
          EnergyHarvester.mk (EnergyHarvester.id existing)
            (EnergyPayload.name payload) (EnergyPayload.location payload)
            (EnergyPayload.energyRecords payload) in
        (Ok updated, <[id := updated]> st)
    | None =>
        (Err ("Energy harvester with id=" +:+ id +:+ " does not exist"), st)
    end.
Proof.
  intros Hid Hn Hl Hr. apply js_not_false in Hid.
  unfold updateEnergyHarvester, StableBTreeMap.get.
  rewrite Hid, (proj2 (guard_false _ _ _)) by auto.
  destruct (st !! id) as [existing |]; [| reflexivity].
  rewrite updated_harvester_literal. reflexivity.
Qed.

Lemma deleteEnergyHarvester_nonempty id (st : Storage) :
  id <> "" ->
  deleteEnergyHarvester id st
  = match st !! id with
    | Some deleted => (Ok deleted, delete id st)
    | None =>
        (Err ("Energy harvester with id=" +:+ id +:+ " does not exist"),
         delete id st)
    end.
Proof.
  intros Hid. apply js_not_false in Hid.
  unfold deleteEnergyHarvester, StableBTreeMap.remove. rewrite Hid.
  now destruct (st !! id).
Qed.

Lemma not_found_is_not_missing_fields (id : string) :
  "Energy harvester with id=" +:+ id +:+ " does not exist" <> missing_fields_msg.
Proof. discriminate. Qed.

(** ** The validation gate *)

(** C4: a payload with an empty name, an empty location or no energy record
    is rejected by [addEnergyHarvester], and by [updateEnergyHarvester]
    called with a non-empty id, with the message "Missing required fields in
    the energy harvester object", whatever its other fields hold and without
    touching the store; a payload with the three fields non-empty is never
    answered with that message. *)
Theorem validation_gate :
  forall (harvesterId id : string) (created : EnergyHarvester.t)
         (updated : EnergyPayload.t) (st : Storage),
    id <> "" ->
    (addEnergyHarvester harvesterId created st = (Err missing_fields_msg, st)
     <-> EnergyHarvester.name created = ""
         \/ EnergyHarvester.location created = ""
         \/ EnergyHarvester.energyRecords created = [])
    /\ (fst (addEnergyHarvester harvesterId created st) = Err missing_fields_msg
        <-> EnergyHarvester.name created = ""
            \/ EnergyHarvester.location created = ""
            \/ EnergyHarvester.energyRecords created = [])
    /\ (updateEnergyHarvester id updated st = (Err missing_fields_msg, st)
        <-> EnergyPayload.name updated = ""
            \/ EnergyPayload.location updated = ""
            \/ EnergyPayload.energyRecords updated = [])
    /\ (fst (updateEnergyHarvester id updated st) = Err missing_fields_msg
        <-> EnergyPayload.name updated = ""
            \/ EnergyPayload.location updated = ""
            \/ EnergyPayload.energyRecords updated = []).
Proof.
  intros harvesterId id created updated st Hid.
  assert (Hadd : fst (addEnergyHarvester harvesterId created st)
                 = Err missing_fields_msg ->
                 EnergyHarvester.name created = ""
                 \/ EnergyHarvester.location created = ""
                 \/ EnergyHarvester.energyRecords created = []).
  { intros H. apply guard_true.
    destruct (js_not (EnergyHarvester.name created)
              || js_not (EnergyHarvester.location created)
              || (length (EnergyHarvester.energyRecords created) =? 0)%nat)
      eqn:G; [reflexivity |].
    apply guard_false in G. destruct G as (Hn & Hl & Hr).
    rewrite addEnergyHarvester_valid in H by assumption. discriminate H. }
  assert (Hupd : fst (updateEnergyHarvester id updated st)
                 = Err missing_fields_msg ->
                 EnergyPayload.name updated = ""
                 \/ EnergyPayload.location updated = ""
                 \/ EnergyPayload.energyRecords updated = []).
  { intros H. apply guard_true.
    destruct (js_not (EnergyPayload.name updated)
              || js_not (EnergyPayload.location updated)
              || (length (EnergyPayload.energyRecords updated) =? 0)%nat)
      eqn:G; [reflexivity |].
    apply guard_false in G. destruct G as (Hn & Hl & Hr).
    rewrite updateEnergyHarvester_valid in H by assumption.
    destruct (st !! id); simpl in H; [discriminate H |].
    exfalso. apply (not_found_is_not_missing_fields id). congruence. }
  repeat split.
  - intros H. apply Hadd. now rewrite H.
  - apply addEnergyHarvester_invalid.
  - exact Hadd.
  - intros H. now rewrite addEnergyHarvester_invalid.
  - intros H. apply Hupd. now rewrite H.
  - now apply updateEnergyHarvester_invalid.
  - exact Hupd.
  - intros H. now rewrite updateEnergyHarvester_invalid.
Qed.

Lemma validation_gate_witness :
  "h1" <> ""
  /\ addEnergyHarvester "uuid-1" (EnergyHarvester.mk "x" "" "North Field" [wind_record]) ∅
     = (Err missing_fields_msg, ∅)
  /\ updateEnergyHarvester "h1" (EnergyPayload.mk "Turbine B" "South Field" []) one_turbine
     = (Err missing_fields_msg, one_turbine).
Proof.
  split; [discriminate |]. split.
  - apply (validation_gate "uuid-1" "h1"
             (EnergyHarvester.mk "x" "" "North Field" [wind_record])
             turbine_payload ∅); [discriminate |].
    left. reflexivity.
  - apply (validation_gate "uuid-1" "h1" (turbine_a "x")
             (EnergyPayload.mk "Turbine B" "South Field" []) one_turbine);
      [discriminate |].
    right. right. reflexivity.
Defined.

(** ** Failed updates *)



(** ** Keys and identifiers *)

Lemma keys_are_ids_empty : keys_are_ids ∅.
Proof. intros key harvester H. now rewrite lookup_empty in H. Qed.

Lemma keys_are_ids_insert (st : Storage) key harvester :
  keys_are_ids st -> EnergyHarvester.id harvester = key ->
  keys_are_ids (<[key := harvester]> st).
Proof.
  intros Hst Hid k h. rewrite lookup_insert.
  case_decide as E.
  - intros [= <-]. congruence.
  - apply Hst.
Qed.

Lemma keys_are_ids_delete (st : Storage) key :
  keys_are_ids st -> keys_are_ids (delete key st).
Proof.
  intros Hst k h. rewrite lookup_delete.
  case_decide; [discriminate | apply Hst].
Qed.

Lemma addEnergyHarvester_keys harvesterId payload (st : Storage) :
  keys_are_ids st -> keys_are_ids (snd (addEnergyHarvester harvesterId payload st)).
Proof.
  intros Hst. unfold addEnergyHarvester.
  destruct (js_not _ || js_not _ || _); simpl; [assumption |].
  now apply keys_are_ids_insert.
Qed.

Lemma updateEnergyHarvester_keys id payload (st : Storage) :
  keys_are_ids st -> keys_are_ids (snd (updateEnergyHarvester id payload st)).
Proof.
  intros Hst. unfold updateEnergyHarvester, StableBTreeMap.get.
  destruct (js_not id); [exact Hst |].
  destruct (js_not _ || js_not _ || _); [exact Hst |].
  destruct (st !! id) as [existing |] eqn:L; [| exact Hst].
  rewrite updated_harvester_literal. unfold StableBTreeMap.insert. simpl.
  apply keys_are_ids_insert; [assumption |].
  simpl. now apply Hst.
Qed.

Lemma deleteEnergyHarvester_keys id (st : Storage) :
  keys_are_ids st -> keys_are_ids (snd (deleteEnergyHarvester id st)).
Proof.
  intros Hst. unfold deleteEnergyHarvester, StableBTreeMap.remove.
  destruct (js_not id); simpl; [assumption |].
  destruct (st !! id); simpl; now apply keys_are_ids_delete.
Qed.

(** C9: in every store reachable from the empty one by calls of
    [addEnergyHarvester], [updateEnergyHarvester] and
    [deleteEnergyHarvester], succeeding or not, each key is the [id] of the
    entity stored under it. *)
Theorem reachable_keys_are_ids :
  forall st : Storage,
    reachable st ->
    forall (key : string) (harvester : EnergyHarvester.t),
      st !! key = Some harvester -> EnergyHarvester.id harvester = key.
Proof.
  intros st H. change (keys_are_ids st).
  induction H as [| st c _ IH].
  - exact keys_are_ids_empty.
  - destruct c; simpl.
    + now apply addEnergyHarvester_keys.
    + now apply updateEnergyHarvester_keys.
    + now apply deleteEnergyHarvester_keys.
Qed.

Lemma reachable_keys_are_ids_witness :
  let st := run (Call_update "caller" turbine_payload)
              (run (Call_add "uuid-1" (turbine_a "caller")) ∅) in
  reachable st
  /\ st !! "caller"
     = Some (EnergyHarvester.mk "caller" "Turbine B" "South Field" [wind_record])
  /\ EnergyHarvester.id
       (EnergyHarvester.mk "caller" "Turbine B" "South Field" [wind_record])
     = "caller".
Proof.
  intros st.
  assert (R : reachable st) by (do 2 apply reachable_call; apply reachable_empty).
  assert (L : st !! "caller"
              = Some (EnergyHarvester.mk "caller" "Turbine B" "South Field"
                        [wind_record])) by (vm_compute; reflexivity).
  split; [exact R |]. split; [exact L |].
  exact (reachable_keys_are_ids st R "caller" _ L).
Defined.

(** ** Lookup by identifier *)

Lemma getEnergyHarvester_empty_id (st : Storage) :
  getEnergyHarvester "" st = Err "Invalid ID for getting an energy harvester.".
Proof. reflexivity. Qed.

(** For a non-empty id the answer is always [Ok], wrapping what the store's
    [get] yields: [Some] entity when the id is present, [None] when it is
    absent. *)
Lemma getEnergyHarvester_nonempty (id : string) (st : Storage) :
  id <> "" -> getEnergyHarvester id st = Ok (st !! id).
Proof.
  intros Hid. apply js_not_false in Hid.
  unfold getEnergyHarvester. now rewrite Hid.
Qed.

(** Creation followed by lookup, for any valid payload: the entity comes
    back, under [Some], unless the payload's own id is empty. *)
Lemma add_then_get harvesterId payload (st : Storage) :
  EnergyHarvester.name payload <> "" ->
  EnergyHarvester.location payload <> "" ->
  EnergyHarvester.energyRecords payload <> [] ->
  exists created st',
    addEnergyHarvester harvesterId payload st = (Ok created, st')
    /\ getEnergyHarvester (EnergyHarvester.id created) st'
       = if js_not (EnergyHarvester.id payload)
         then Err "Invalid ID for getting an energy harvester."
         else Ok (Some created).
Proof.
  intros Hn Hl Hr. eexists _, _. split.
  - now apply addEnergyHarvester_valid.
  - unfold getEnergyHarvester, StableBTreeMap.get.
    destruct (js_not (EnergyHarvester.id payload)); [reflexivity |].
    now rewrite lookup_insert_eq.
Qed.

(** Deletion followed by lookup, for a non-empty id that is present. *)
Lemma delete_then_get (id : string) (st : Storage) harvester :
  id <> "" -> st !! id = Some harvester ->
  exists st',
    deleteEnergyHarvester id st = (Ok harvester, st')
    /\ st' !! id = None
    /\ getEnergyHarvester id st' = Ok None.
Proof.
  intros Hid L. exists (delete id st).
  rewrite deleteEnergyHarvester_nonempty, L by assumption.
  rewrite getEnergyHarvester_nonempty by assumption.
  now rewrite lookup_delete_eq.
Qed.

(** C1: the round trip breaks on a valid payload whose own [id] is empty.
    [addEnergyHarvester] returns the payload as the created entity, stored
    under the empty key, and [getEnergyHarvester] on that entity's id
    answers with the invalid-id error instead of the entity. *)
Theorem add_then_get_empty_payload_id :
  let '(created, st) := addEnergyHarvester "uuid-1" (turbine_a "") ∅ in
  created = Ok (turbine_a "")
  /\ st !! "" = Some (turbine_a "")
  /\ getEnergyHarvester (EnergyHarvester.id (turbine_a "")) st
     = Err "Invalid ID for getting an energy harvester.".
Proof. vm_compute. repeat split. Qed.

(** C2: the identifier minted for the call is discarded. With the minted
    identifier ["uuid-1"] and a payload carrying the id ["caller"], the
    created entity has id ["caller"], is stored under ["caller"], and nothing
    is stored under ["uuid-1"]. *)
Theorem add_uses_payload_id :
  let '(created, st) := addEnergyHarvester "uuid-1" (turbine_a "caller") ∅ in
  created = Ok (turbine_a "caller")
  /\ EnergyHarvester.id (turbine_a "caller") = "caller"
  /\ st !! "caller" = Some (turbine_a "caller")
  /\ st !! "uuid-1" = None.
Proof. vm_compute. repeat split. Qed.

(** C3: for a non-empty id that is absent from the store,
    [getEnergyHarvester] answers [Ok] around the store's absence marker; no
    error is signalled. *)
Theorem get_absent_is_ok :
  (∅ : Storage) !! "h1" = None
  /\ getEnergyHarvester "h1" ∅ = Ok None.
Proof. vm_compute. split; reflexivity. Qed.


(** ** Substring search *)

Lemma append_cons (c : ascii) (a post : string) :
  String c a +:+ post = String c (a +:+ post).
Proof. reflexivity. Qed.

Lemma prefix_append (a s : string) :
  String.prefix a s = true <-> exists post, s = a +:+ post.
Proof.
  revert s. induction a as [| c a IH]; intros s.
  - split; [intros _; now exists s | intros _; now destruct s].
  - destruct s as [| b s]; simpl.
    + split; [discriminate | intros [post E]; discriminate E].
    + destruct (ascii_dec c b) as [-> | Hne].
      * rewrite IH.
        split; intros [post E]; exists post; rewrite append_cons in *; congruence.
      * split; [discriminate | intros [post E]].
        rewrite append_cons in E. congruence.
Qed.

Lemma includes_nil (sub : string) :
  includes "" sub = String.prefix sub "" || false.
Proof. reflexivity. Qed.

Lemma includes_cons (c : ascii) (s sub : string) :
  includes (String c s) sub
  = String.prefix sub (String c s) || includes s sub.
Proof. reflexivity. Qed.

Lemma includes_contains (s sub : string) :
  includes s sub = true <-> contains s sub.
Proof.
  unfold contains. induction s as [| c s IH];
    [rewrite includes_nil | rewrite includes_cons].
  - rewrite orb_false_r, prefix_append. split.
    + intros [post E]. now exists "", post.
    + intros (pre & post & E). destruct pre; [now exists post |].
      rewrite append_cons in E. discriminate E.
  - rewrite orb_true_iff, prefix_append, IH. split.
    + intros [[post E] | (pre & post & E)].
      * now exists "", post.
      * exists (String c pre), post. now rewrite append_cons, E.
    + intros (pre & post & E). destruct pre as [| c' pre].
      * left. now exists post.
      * right. exists pre, post. rewrite append_cons in E. congruence.
Qed.

Lemma includes_empty (s : string) : includes s "" = true.
Proof. apply includes_contains. now exists "", s. Qed.

Lemma harvester_matches_contains (lowerCaseQuery : string) harvester :
  harvester_matches lowerCaseQuery harvester = true
  <-> contains (toLowerCase (EnergyHarvester.name harvester)) lowerCaseQuery
      \/ contains (toLowerCase (EnergyHarvester.location harvester)) lowerCaseQuery.
Proof.
  unfold harvester_matches. now rewrite orb_true_iff, !includes_contains.
Qed.

Lemma filter_all_true {A} (f : A -> bool) (l : list A) :
  (forall x, f x = true) -> List.filter f l = l.
Proof.
  intros H. induction l as [| x l IH]; simpl; [reflexivity |].
  now rewrite H, IH.
Qed.

Lemma filter_is_sublist {A} (f : A -> bool) (l : list A) :
  sublist (List.filter f l) l.
Proof.
  induction l as [| x l IH]; simpl; [constructor |].
  destruct (f x); now constructor.
Qed.

(** C5: [searchEnergyHarvesters] always succeeds; its result is the sequence
    of stored harvesters, in the store's iteration order, restricted to
    those whose lower-cased name or lower-cased location contains the
    lower-cased query as a substring; the empty query selects every stored
    harvester. An empty result is an [Ok] like any other. *)
Theorem search_selects_substring_matches :
  forall (query : string) (st : Storage),
  exists result : list EnergyHarvester.t,
    searchEnergyHarvesters query st = Ok result
    /\ result = List.filter (harvester_matches (toLowerCase query))
                  (StableBTreeMap.values st)
    /\ (forall harvester,
          harvester_matches (toLowerCase query) harvester = true
          <-> contains (toLowerCase (EnergyHarvester.name harvester))
                (toLowerCase query)
              \/ contains (toLowerCase (EnergyHarvester.location harvester))
                   (toLowerCase query))
    /\ (forall harvester,
          In harvester result
          <-> In harvester (StableBTreeMap.values st)
              /\ (contains (toLowerCase (EnergyHarvester.name harvester))
                    (toLowerCase query)
                  \/ contains (toLowerCase (EnergyHarvester.location harvester))
                       (toLowerCase query)))
    /\ sublist result (StableBTreeMap.values st)
    /\ searchEnergyHarvesters "" st = Ok (StableBTreeMap.values st).
Proof.
  intros query st. eexists. split; [reflexivity |]. split; [reflexivity |].
  split; [intros h; apply harvester_matches_contains |].
  split; [| split].
  - intros h. rewrite filter_In, harvester_matches_contains. reflexivity.
  - apply filter_is_sublist.
  - unfold searchEnergyHarvesters. f_equal. apply filter_all_true.
    intros h. unfold harvester_matches. simpl. now rewrite includes_empty.
Qed.

(** The search example of the specification: a harvester named
    "Solar Array 1" is found by "solar", "SOLAR" and "Array", not by "wind". *)
Example search_solar_array :
  let solar := EnergyHarvester.mk "a" "Solar Array 1" "Roof"
                 [sample 10%float; sample 20%float] in
  searchEnergyHarvesters "solar" two_harvesters = Ok [solar]
  /\ searchEnergyHarvesters "SOLAR" two_harvesters = Ok [solar]
  /\ searchEnergyHarvesters "Array" two_harvesters = Ok [solar]
  /\ searchEnergyHarvesters "wind" two_harvesters = Ok [].
Proof. vm_compute. repeat split. Qed.

(** ** Aggregates *)

(** A loop over the harvesters with an inner loop over their records is a
    single loop over all the records. *)
Lemma nested_fold_concat {A} (f : A -> EnergyRecord.t -> A)
    (harvesters : list EnergyHarvester.t) (a : A) :
  fold_left
    (fun acc harvester => fold_left f (EnergyHarvester.energyRecords harvester) acc)
    harvesters a
  = fold_left f
      (List.concat (List.map EnergyHarvester.energyRecords harvesters)) a.
Proof.
  revert a. induction harvesters as [| h hs IH]; intros a; simpl.
  - reflexivity.
  - now rewrite fold_left_app, IH.
Qed.

(** The loop of [getAveragePowerGenerated] computes the sum and the number of
    records side by side. *)
Lemma sum_and_count (records : list EnergyRecord.t) (power : number) (n : nat) :
  fold_left
    (fun '(totalPower, totalRecords) record =>
       ((totalPower + EnergyRecord.powerGenerated record)%float, S totalRecords))
    records (power, n)
  = (fold_left
       (fun acc record => (acc + EnergyRecord.powerGenerated record)%float)
       records power,
     n + length records).
Proof.
  revert power n. induction records as [| r rs IH]; intros power n; simpl.
  - now rewrite Nat.add_0_r.
  - now rewrite IH, Nat.add_succ_r.
Qed.

Lemma getTotalPowerGenerated_sum (st : Storage) :
  getTotalPowerGenerated st = Ok (spec_sum_power (spec_all_records st)).
Proof.
  unfold getTotalPowerGenerated, spec_sum_power, spec_all_records.
  now rewrite nested_fold_concat.
Qed.

Lemma getAveragePowerGenerated_eq (st : Storage) :
  getAveragePowerGenerated st
  = if (length (spec_all_records st) =? 0)%nat
    then Err "No energy records found"
    else Ok (spec_sum_power (spec_all_records st)
             / counter_value (length (spec_all_records st)))%float.
Proof.
  unfold getAveragePowerGenerated.
  rewrite (nested_fold_concat
             (fun '(totalPower, totalRecords) record =>
                ((totalPower + EnergyRecord.powerGenerated record)%float,
                 S totalRecords))).
  rewrite sum_and_count. reflexivity.
Qed.

(** C7: [getTotalPowerGenerated] always answers [Ok]; the value is the sum
    of [powerGenerated] over every record of every stored harvester, and it
    is [0] when the store holds no record, in particular when it is empty. *)
Theorem total_power_is_sum :
  forall st : Storage,
    getTotalPowerGenerated st = Ok (spec_sum_power (spec_all_records st))
    /\ (spec_all_records st = [] -> getTotalPowerGenerated st = Ok 0%float)
    /\ getTotalPowerGenerated ∅ = Ok 0%float.
Proof.
  intros st. split; [apply getTotalPowerGenerated_sum |]. split.
  - intros E. now rewrite getTotalPowerGenerated_sum, E.
  - reflexivity.
Qed.

Lemma total_power_is_sum_witness :
  spec_all_records idle_store = []
  /\ getTotalPowerGenerated idle_store = Ok 0%float.
Proof.
  assert (E : spec_all_records idle_store = []) by (vm_compute; reflexivity).
  split; [exact E |].
  exact (proj1 (proj2 (total_power_is_sum idle_store)) E).
Defined.


(** The aggregation example of the specification: with records [10, 20]
    and [30] the total is [60] and the average [20]; on the empty store the
    total is [0] and the average is refused. *)
Example aggregates_of_two_harvesters :
  getTotalPowerGenerated two_harvesters = Ok 60%float
  /\ getAveragePowerGenerated two_harvesters = Ok 20%float
  /\ counter_value 3 = 3%float
  /\ getTotalPowerGenerated ∅ = Ok 0%float
  /\ getAveragePowerGenerated ∅ = Err "No energy records found".
Proof. vm_compute. repeat split. Qed.

(** ** The scenario of the specification

    A harvester is created, its records are read back, it is deleted, and
    it is looked up again. *)
Example scenario_turbine_a :
  let '(created, st1) := addEnergyHarvester "uuid-1" (turbine_a "h1") ∅ in
  let '(deleted, st2) := deleteEnergyHarvester "h1" st1 in
  created = Ok (turbine_a "h1")
  /\ getEnergyHarvesters st1 = Ok [turbine_a "h1"]
  /\ getEnergyRecords "h1" st1 = Ok [wind_record]
  /\ deleted = Ok (turbine_a "h1")
  /\ getEnergyHarvesters st2 = Ok []
  /\ getEnergyRecords "h1" st2 = Err "Energy harvester with id=h1 not found"
  /\ getEnergyHarvester "h1" st2 = Ok None.
Proof. vm_compute. repeat split. Qed.

(** * Further properties of the operations *)

(** ** Deletion *)

Lemma deleteEnergyHarvester_cases (id : string) (st : Storage) :
  deleteEnergyHarvester id st
  = if js_not id
    then (Err "Invalid ID for deleting an energy harvester.", st)
    else match st !! id with
         | Some deleted => (Ok deleted, delete id st)
         | None =>
             (Err ("Energy harvester with id=" +:+ id +:+ " does not exist"), st)
         end.
Proof.
  unfold deleteEnergyHarvester, StableBTreeMap.remove.
  destruct (js_not id); [reflexivity |].
  destruct (st !! id) eqn:L; [reflexivity |].
  now rewrite (delete_id st id L).
Qed.

Lemma values_length (st : Storage) :
  length (StableBTreeMap.values st) = size st.
Proof.
  unfold StableBTreeMap.values. now rewrite length_fmap, length_map_to_list.
Qed.







(** ** Update *)

Lemma updateEnergyHarvester_cases (id : string) (payload : EnergyPayload.t)
    (st : Storage) :
  updateEnergyHarvester id payload st
  = if js_not id
    then (Err "Invalid ID for updating an energy harvester.", st)
    else if js_not (EnergyPayload.name payload)
            || js_not (EnergyPayload.location payload)
            || (length (EnergyPayload.energyRecords payload) =? 0)%nat
    then (Err missing_fields_msg, st)
    else match st !! id with
         | Some existing =>
             (Ok (updated_entity existing payload),
              <[id := updated_entity existing payload]> st)
         | None =>
             (Err ("Energy harvester with id=" +:+ id +:+ " does not exist"), st)
         end.
Proof.
  unfold updateEnergyHarvester, StableBTreeMap.get.
  destruct (js_not id); [reflexivity |].
  destruct (js_not _ || js_not _ || _); [reflexivity |].
  destruct (st !! id) as [existing |]; [| reflexivity].
  now rewrite updated_harvester_literal.
Qed.






(** X6: whatever its arguments and its answer, [updateEnergyHarvester]
    neither adds nor removes a key of the store. *)
Theorem update_keeps_key_set :
  forall (id : string) (payload : EnergyPayload.t) (st : Storage),
    dom (snd (updateEnergyHarvester id payload st)) = dom st.
Proof.
  intros id payload st. rewrite updateEnergyHarvester_cases.
  destruct (js_not id); [reflexivity |].
  destruct (js_not _ || js_not _ || _); [reflexivity |].
  destruct (st !! id) as [existing |] eqn:L; [| reflexivity].
  simpl. apply dom_insert_lookup_L. now rewrite L.
Qed.

(** ** Creation *)

Lemma addEnergyHarvester_cases (harvesterId : string)
    (payload : EnergyHarvester.t) (st : Storage) :
  addEnergyHarvester harvesterId payload st
  = if js_not (EnergyHarvester.name payload)
       || js_not (EnergyHarvester.location payload)
       || (length (EnergyHarvester.energyRecords payload) =? 0)%nat
    then (Err missing_fields_msg, st)
    else (Ok payload, <[EnergyHarvester.id payload := payload]> st).
Proof.
  unfold addEnergyHarvester.
  destruct (js_not _ || js_not _ || _); [reflexivity |].
  now rewrite new_harvester_literal.
Qed.

(** X7: the answer of [addEnergyHarvester] and the store it leaves do not
    depend on the identifier obtained from [uuidv4()]. *)
Theorem add_ignores_minted_id :
  forall (harvesterId harvesterId' : string) (payload : EnergyHarvester.t)
         (st : Storage),
    addEnergyHarvester harvesterId payload st
    = addEnergyHarvester harvesterId' payload st.
Proof.
  intros. now rewrite !addEnergyHarvester_cases.
Qed.

(** X8: a successful [addEnergyHarvester] returns the payload as the created
    entity and stores it under the payload's own id, leaving every other
    entry alone. There is no check for an existing entry: if the id was
    free the listing grows by one, and if it was taken the stored entity is
    replaced and the listing keeps its length. *)
Theorem add_success_stores_payload :
  forall (harvesterId : string) (payload created : EnergyHarvester.t)
         (st st' : Storage),
    addEnergyHarvester harvesterId payload st = (Ok created, st') ->
    created = payload
    /\ has_required_fields payload
    /\ st' !! EnergyHarvester.id payload = Some payload
    /\ (forall key, key <> EnergyHarvester.id payload -> st' !! key = st !! key)
    /\ length (StableBTreeMap.values st')
       = match st !! EnergyHarvester.id payload with
         | Some _ => length (StableBTreeMap.values st)
         | None => S (length (StableBTreeMap.values st))
         end.
Proof.
  intros harvesterId payload created st st' H.
  rewrite addEnergyHarvester_cases in H.
  destruct (js_not _ || js_not _ || _) eqn:G; [discriminate H |].
  injection H as <- <-. apply guard_false in G.
  repeat split; try apply G.
  - apply lookup_insert_eq.
  - intros key Hne. now apply lookup_insert_ne.
  - rewrite !values_length.
    destruct (st !! EnergyHarvester.id payload) as [old |] eqn:L.
    + rewrite <- (insert_delete_id st _ old L) at 2.
      rewrite <- insert_delete_eq.
      rewrite !map_size_insert_None by apply lookup_delete_eq. reflexivity.
    + now apply map_size_insert_None.
Qed.

Lemma add_success_stores_payload_witness :
  addEnergyHarvester "uuid-1" (turbine_a "h1") one_turbine
  = (Ok (turbine_a "h1"), <["h1" := turbine_a "h1"]> one_turbine)
  /\ has_required_fields (turbine_a "h1").
Proof.
  assert (E : addEnergyHarvester "uuid-1" (turbine_a "h1") one_turbine
              = (Ok (turbine_a "h1"), <["h1" := turbine_a "h1"]> one_turbine))
    by (rewrite addEnergyHarvester_cases; reflexivity).
  split; [exact E |].
  exact (proj1 (proj2 (add_success_stores_payload _ _ _ _ _ E))).
Defined.



(** ** Reading by identifier *)


(** X11: an entity stored under the empty key is out of reach of
    [updateEnergyHarvester] and [deleteEnergyHarvester]: whatever their
    arguments, the entry under the empty key is the same after the call. *)
Theorem empty_key_entry_is_immune :
  forall (id : string) (payload : EnergyPayload.t) (st : Storage),
    snd (updateEnergyHarvester id payload st) !! "" = st !! ""
    /\ snd (deleteEnergyHarvester id st) !! "" = st !! "".
Proof.
  intros id payload st.
  rewrite updateEnergyHarvester_cases, deleteEnergyHarvester_cases.
  destruct (js_not id) eqn:Hid; [split; reflexivity |].
  apply js_not_false in Hid. split.
  - destruct (js_not _ || js_not _ || _); [reflexivity |].
    destruct (st !! id); [| reflexivity].
    simpl. now apply lookup_insert_ne.
  - destruct (st !! id); [| reflexivity].
    simpl. now apply lookup_delete_ne.
Qed.

(** ** Invariants of reachable stores *)

Lemma reachable_keys (st : Storage) : reachable st -> keys_are_ids st.
Proof.
  induction 1 as [| st c _ IH]; [exact keys_are_ids_empty |].
  destruct c; simpl.
  - now apply addEnergyHarvester_keys.
  - now apply updateEnergyHarvester_keys.
  - now apply deleteEnergyHarvester_keys.
Qed.

Lemma reachable_required_fields (st : Storage) :
  reachable st ->
  forall key harvester, st !! key = Some harvester ->
                        has_required_fields harvester.
Proof.
  induction 1 as [| st c _ IH]; intros key harvester.
  - now rewrite lookup_empty.
  - destruct c as [harvesterId payload | id payload | id]; simpl.
    + rewrite addEnergyHarvester_cases.
      destruct (js_not _ || js_not _ || _) eqn:G; simpl; [apply IH |].
      rewrite lookup_insert. case_decide; [| apply IH].
      intros [= <-]. now apply guard_false.
    + rewrite updateEnergyHarvester_cases.
      destruct (js_not id); simpl; [apply IH |].
      destruct (js_not _ || js_not _ || _) eqn:G; simpl; [apply IH |].
      destruct (st !! id) as [existing |]; simpl; [| apply IH].
      rewrite lookup_insert. case_decide; [| apply IH].
      intros [= <-]. now apply guard_false.
    + rewrite deleteEnergyHarvester_cases.
      destruct (js_not id); simpl; [apply IH |].
      destruct (st !! id); simpl; [| apply IH].
      rewrite lookup_delete. case_decide; [discriminate | apply IH].
Qed.

Lemma values_elem (st : Storage) (harvester : EnergyHarvester.t) :
  In harvester (StableBTreeMap.values st)
  <-> exists key, st !! key = Some harvester.
Proof.
  unfold StableBTreeMap.values. rewrite <- list_elem_of_In, list_elem_of_fmap.
  split.
  - intros ([key h] & -> & H). exists key. now apply elem_of_map_to_list.
  - intros [key H]. exists (key, harvester). split; [reflexivity |].
    now apply elem_of_map_to_list.
Qed.

Lemma ids_of_values (st : Storage) :
  keys_are_ids st ->
  List.map EnergyHarvester.id (StableBTreeMap.values st) = (map_to_list st).*1.
Proof.
  intros Hk. unfold StableBTreeMap.values.
  assert (F : Forall (fun kh => EnergyHarvester.id kh.2 = kh.1) (map_to_list st)).
  { apply Forall_forall. intros [key h] Hin. simpl.
    apply Hk. now apply elem_of_map_to_list. }
  revert F. generalize (map_to_list st). intros entries F.
  induction F as [| [key h] l E _ IH]; simpl in *; [reflexivity |].
  f_equal; assumption.
Qed.

(** X12: every entity in a store reachable from the empty one has a
    non-empty name, a non-empty location and at least one record: nothing
    gets past the guards of [addEnergyHarvester] and
    [updateEnergyHarvester]. *)
Theorem reachable_entities_have_required_fields :
  forall st : Storage,
    reachable st ->
    forall (key : string) (harvester : EnergyHarvester.t),
      st !! key = Some harvester ->
      EnergyHarvester.name harvester <> ""
      /\ EnergyHarvester.location harvester <> ""
      /\ EnergyHarvester.energyRecords harvester <> [].
Proof.
  intros st R key harvester L.
  exact (reachable_required_fields st R key harvester L).
Qed.

Lemma reachable_entities_have_required_fields_witness :
  let st := run (Call_add "uuid-1" (turbine_a "h1")) ∅ in
  reachable st
  /\ st !! "h1" = Some (turbine_a "h1")
  /\ EnergyHarvester.name (turbine_a "h1") <> "".
Proof.
  intros st.
  assert (R : reachable st) by (apply reachable_call, reachable_empty).
  assert (L : st !! "h1" = Some (turbine_a "h1")) by (vm_compute; reflexivity).
  split; [exact R |]. split; [exact L |].
  exact (proj1 (reachable_entities_have_required_fields st R "h1" _ L)).
Defined.

(** X13: in a store reachable from the empty one, the listing of
    [getEnergyHarvesters] has pairwise distinct ids, and an entity is listed
    exactly when it is the one stored under its own id. *)
Theorem reachable_listing_has_unique_ids :
  forall st : Storage,
    reachable st ->
    exists listing : list EnergyHarvester.t,
      getEnergyHarvesters st = Ok listing
      /\ NoDup (List.map EnergyHarvester.id listing)
      /\ (forall harvester,
            In harvester listing
            <-> st !! EnergyHarvester.id harvester = Some harvester).
Proof.
  intros st R. apply reachable_keys in R.
  eexists. split; [reflexivity |]. split.
  - rewrite ids_of_values by assumption. apply NoDup_fst_map_to_list.
  - intros harvester. rewrite values_elem. split.
    + intros [key L]. now rewrite (R key harvester L).
    + intros L. now exists (EnergyHarvester.id harvester).
Qed.

Lemma reachable_listing_has_unique_ids_witness :
  let st := run (Call_add "uuid-1" (turbine_a "h1")) ∅ in
  reachable st
  /\ exists listing, getEnergyHarvesters st = Ok listing
                     /\ NoDup (List.map EnergyHarvester.id listing).
Proof.
  intros st.
  assert (R : reachable st) by (apply reachable_call, reachable_empty).
  split; [exact R |].
  destruct (reachable_listing_has_unique_ids st R) as (listing & E & N & _).
  now exists listing.
Defined.

(** ** The average over reachable stores *)

Lemma no_records_iff (st : Storage) :
  length (spec_all_records st) = 0
  <-> forall key harvester,
        st !! key = Some harvester ->
        EnergyHarvester.energyRecords harvester = [].
Proof.
  unfold spec_all_records. rewrite length_zero_iff_nil. split.
  - intros E key harvester L.
    assert (Hin : In harvester (StableBTreeMap.values st))
      by (apply values_elem; now exists key).
    revert E Hin. generalize (StableBTreeMap.values st) as hs.
    induction hs as [| h hs IH]; simpl; [contradiction |].
    intros E [-> | Hin]; apply app_eq_nil in E; destruct E as [E1 E2]; auto.
  - intros H.
    assert (F : forall h, In h (StableBTreeMap.values st) ->
                          EnergyHarvester.energyRecords h = []).
    { intros h Hin. apply values_elem in Hin. destruct Hin as [key L]. eauto. }
    revert F. generalize (StableBTreeMap.values st) as hs.
    induction hs as [| h hs IH]; simpl; [reflexivity |].
    intros F. rewrite (F h) by now left. simpl. apply IH. intros; apply F; now right.
Qed.

(** X14: in a store reachable from the empty one,
    [getAveragePowerGenerated] answers with "No energy records found"
    exactly when the store is empty, and with [Ok] exactly when it is not:
    every stored harvester contributes at least one record. *)
Theorem reachable_average_fails_iff_empty :
  forall st : Storage,
    reachable st ->
    (getAveragePowerGenerated st = Err "No energy records found" <-> st = ∅)
    /\ ((exists average, getAveragePowerGenerated st = Ok average) <-> st <> ∅).
Proof.
  intros st R.
  assert (Z : length (spec_all_records st) = 0 <-> st = ∅).
  { rewrite no_records_iff. split.
    - intros H. apply map_empty. intros key.
      destruct (st !! key) as [h |] eqn:L; [| reflexivity].
      destruct (reachable_required_fields st R key h L) as (_ & _ & Hr).
      now contradiction Hr; apply (H key).
    - intros -> key h L. now rewrite lookup_empty in L. }
  rewrite getAveragePowerGenerated_eq.
  destruct (length (spec_all_records st)) as [| n] eqn:E; simpl.
  - assert (st = ∅) by now apply Z. split; split; try tauto.
    intros [average H']. discriminate H'.
  - assert (st <> ∅) by (intros He; apply Z in He; discriminate He).
    split; split; try discriminate; try tauto. eauto.
Qed.

Lemma reachable_average_fails_iff_empty_witness :
  reachable ∅
  /\ getAveragePowerGenerated ∅ = Err "No energy records found".
Proof.
  split; [exact reachable_empty |].
  apply (proj1 (reachable_average_fails_iff_empty ∅ reachable_empty)).
  reflexivity.
Defined.

(** ** Case and the search *)









(** ** Further compositions *)


(** X18: adding a payload that has just been added changes nothing: the
    second call returns the same entity and leaves the store as the first
    call left it, so the payload's id never holds two entries. *)
Theorem add_twice_is_add_once :
  forall (harvesterId harvesterId' : string)
         (payload created : EnergyHarvester.t) (st st' : Storage),
    addEnergyHarvester harvesterId payload st = (Ok created, st') ->
    addEnergyHarvester harvesterId' payload st' = (Ok created, st').
Proof.
  intros harvesterId harvesterId' payload created st st' H.
  rewrite addEnergyHarvester_cases in *.
  destruct (js_not _ || js_not _ || _); [discriminate H |].
  injection H as <- <-. now rewrite insert_insert_eq.
Qed.

Lemma add_twice_is_add_once_witness :
  addEnergyHarvester "uuid-1" (turbine_a "h1") ∅
  = (Ok (turbine_a "h1"), <["h1" := turbine_a "h1"]> ∅)
  /\ addEnergyHarvester "uuid-2" (turbine_a "h1") (<["h1" := turbine_a "h1"]> ∅)
     = (Ok (turbine_a "h1"), <["h1" := turbine_a "h1"]> ∅).
Proof.
  assert (E : addEnergyHarvester "uuid-1" (turbine_a "h1") ∅
              = (Ok (turbine_a "h1"), <["h1" := turbine_a "h1"]> ∅))
    by (rewrite addEnergyHarvester_cases; reflexivity).
  split; [exact E |].
  exact (add_twice_is_add_once "uuid-1" "uuid-2" _ _ _ _ E).
Defined.




